(** * Twurple: Helix subscription API and EventSub redemption subscription

    A shallow embedding of
    - [packages/twitch/src/API/Helix/Subscriptions/HelixSubscriptionApi.ts]
    - [packages/eventsub/src/subscriptions/EventSubChannelRedemptionAddSubscription.ts]

    Asynchronous methods are computations in a state-and-exception monad
    over a [World]: the state of the remote service together with the log of
    the calls issued to it so far.  A promise that rejects is a computation
    that ends in [Rejected]. *)

From Stdlib Require Import ZArith NArith String List Lia.
From stdpp Require Import base option list strings gmap.

Local Open Scope string_scope.
Local Open Scope list_scope.

(** ** JavaScript values and thrown errors *)

(** A value position that may hold [null] or [undefined] at run time
    (TypeScript's types are erased, so an index past the end of an array
    yields [undefined] whatever the declared element type). *)
Inductive Js (A : Type) : Type :=
| js_null
| js_undefined
| js_value (a : A).
Arguments js_null {A}.
Arguments js_undefined {A}.
Arguments js_value {A} a.

(** [arr[i]] *)
Definition js_index {A} (arr : list A) (i : nat) : Js A :=
  match arr !! i with
  | Some a => js_value a
  | None => js_undefined
  end.

(** [v ?? null] *)
Definition js_or_null {A} (v : Js A) : Js A :=
  match v with
  | js_value a => js_value a
  | js_null | js_undefined => js_null
  end.

(** Truthiness of a string: only the empty string is falsy. *)
Definition string_truthy (s : string) : bool := negb (String.eqb s "").

(** [s.includes(needle)] *)
Definition includes (s needle : string) : bool :=
  match String.index 0 needle s with
  | Some _ => true
  | None => false
  end.

(** Truthiness of a number used as a condition ([list.length ? _ : _]). *)
Definition length_truthy {A} (l : list A) : bool := negb (Nat.eqb (length l) 0).

(** What a [throw] can carry.  [HttpStatusCodeError] is the class of
    twitch-api-call; everything else a Gateway call may reject with is an
    [OtherError]. *)
Inductive Thrown : Type :=
| HttpStatusCodeError (statusCode : Z) (statusText body : string)
| OtherError (message : string).

(** [e instanceof HttpStatusCodeError && e.statusCode === 404] *)
Definition is_not_found (e : Thrown) : bool :=
  match e with
  | HttpStatusCodeError statusCode _ _ => Z.eqb statusCode 404
  | OtherError _ => false
  end.

(** How an awaited promise settles. *)
Inductive Completion (A : Type) : Type :=
| Resolved (a : A)
| Rejected (e : Thrown).
Arguments Resolved {A} a.
Arguments Rejected {A} e.

(** ** The monad of asynchronous computations against a remote service *)

Module Async.
Section Async.
Context {Call Reply Remote : Type}.

(** The remote service plus the calls issued to it, oldest first. *)
Record World : Type := mkWorld { remote : Remote; issued : list Call }.

(** The Gateway: how the remote service answers one call. *)
Variable respond : Call → Remote → Completion Reply * Remote.

Definition M (A : Type) : Type := World → Completion A * World.

Definition ret {A} (a : A) : M A := λ w, (Resolved a, w).

Definition throw {A} (e : Thrown) : M A := λ w, (Rejected e, w).

Definition bind {A B} (m : M A) (k : A → M B) : M B :=
  λ w, match m w with
       | (Resolved a, w') => k a w'
       | (Rejected e, w') => (Rejected e, w')
       end.

(** [try { m } catch (e) { h e }] *)
Definition try_catch {A} (m : M A) (h : Thrown → M A) : M A :=
  λ w, match m w with
       | (Resolved a, w') => (Resolved a, w')
       | (Rejected e, w') => h e w'
       end.

(** One call to the Gateway: it is logged, then answered. *)
Definition perform (c : Call) : M Reply :=
  λ w, let '(r, s) := respond c (remote w) in
       (r, {| remote := s; issued := issued w ++ [c] |}).

(** A computation on the remote state that issues no logged call. *)
Definition quiet {A} (f : Remote → Completion A * Remote) : M A :=
  λ w, let '(r, s) := f (remote w) in
       (r, {| remote := s; issued := issued w |}).

(** The world after one logged call [c] that left the remote in state [s]. *)
Definition after (w : World) (c : Call) (s : Remote) : World :=
  {| remote := s; issued := issued w ++ [c] |}.
End Async.
Arguments World : clear implicits.
Arguments M : clear implicits.
End Async.

#[global] Instance async_ret {Call Remote} : MRet (Async.M Call Remote) :=
  λ A, Async.ret.
#[global] Instance async_bind {Call Remote} : MBind (Async.M Call Remote) :=
  λ A B k m, Async.bind m k.

(** ** Helix: call options and response bodies *)

Inductive TwitchApiCallType : Type := Kraken | Helix | Auth | Custom.

(** A query parameter is a string or a list of strings. *)
Inductive QueryValue : Type :=
| QString (s : string)
| QStrings (l : list string).

(** The options object handed to [callApi]; [query] is a JavaScript object
    used as a map from parameter names to values. *)
Record TwitchApiCallOptions : Type := mkOptions {
  url : string;
  scope : option string;
  type : option TwitchApiCallType;
  query : gmap string QueryValue
}.

(** ** The Helix subscription API *)

Module Helix.
Section HelixSubscriptionApi.
(** [RawData] is a raw JSON item as the Gateway returns it (the
    [Helix*Data] interfaces, erased at run time); [ApiClient] is the
    Gateway client object; [extractUserId] is twitch-common's. *)
Context {RawData ApiClient UserIdResolvable Remote : Type}.
Variable extractUserId : UserIdResolvable → string.

(** [HelixResponse], [HelixPaginatedResponse] and
    [HelixPaginatedResponseWithTotal]: a JSON body with a [data] array
    and, where the endpoint has them, [pagination] and [total]. *)
Record HelixPagination : Type := mkPagination { cursor : option string }.
Record HelixResponse : Type := mkResponse {
  data : list RawData;
  pagination : option HelixPagination;
  total : option N
}.

Definition Call : Type := ApiClient * TwitchApiCallOptions.
Variable respond : Call → Remote → Completion HelixResponse * Remote.
Local Abbreviation M := (Async.M Call Remote).

(** [client.callApi(options)] *)
Definition callApi (client : ApiClient) (options : TwitchApiCallOptions)
  : M HelixResponse :=
  Async.perform respond (client, options).

(** Modelled from the spec: DomainEntity, the typed decoded form of one
    raw item plus a back-reference to the Gateway (the classes of
    HelixSubscription.ts, HelixSubscriptionEvent.ts and
    HelixUserSubscription.ts), constructed as [new C(data, client)].  The
    data of a HelixUserSubscription may be [undefined] at run time. *)
Record HelixSubscription : Type := new_HelixSubscription {
  HelixSubscription_data : RawData;
  HelixSubscription_client : ApiClient
}.
Record HelixSubscriptionEvent : Type := new_HelixSubscriptionEvent {
  HelixSubscriptionEvent_data : RawData;
  HelixSubscriptionEvent_client : ApiClient
}.
Record HelixUserSubscription : Type := new_HelixUserSubscription {
  HelixUserSubscription_data : Js RawData;
  HelixUserSubscription_client : ApiClient
}.

Record HelixPaginatedResult (T : Type) : Type := mkPaginatedResult {
  result_data : list T;
  result_cursor : option string
}.
Record HelixPaginatedResultWithTotal (T : Type) : Type :=
  mkPaginatedResultWithTotal {
  total_result_data : list T;
  total_result_cursor : option string;
  total_result_total : option N
}.
Arguments mkPaginatedResult {T}.
Arguments result_data {T}.
Arguments result_cursor {T}.
Arguments mkPaginatedResultWithTotal {T}.
Arguments total_result_data {T}.
Arguments total_result_cursor {T}.
Arguments total_result_total {T}.

(** Modelled from the spec: Result Page Decoder (createPaginatedResult
    and createPaginatedResultWithTotal of HelixPaginatedResult.ts): one
    raw page response becomes the list of decoded entities, one per raw
    item, plus the continuation cursor and, for total-aware endpoints,
    the total. *)
Definition createPaginatedResult {T} (response : HelixResponse)
    (new_T : RawData → ApiClient → T) (client : ApiClient)
  : HelixPaginatedResult T :=
  {| result_data := (λ d, new_T d client) <$> data response;
     result_cursor := pagination response ≫= cursor |}.

Definition createPaginatedResultWithTotal {T} (response : HelixResponse)
    (new_T : RawData → ApiClient → T) (client : ApiClient)
  : HelixPaginatedResultWithTotal T :=
  {| total_result_data := (λ d, new_T d client) <$> data response;
     total_result_cursor := pagination response ≫= cursor;
     total_result_total := total response |}.

(** Modelled from the spec: the request a Paginator traverses (the classes
    HelixPaginatedRequest and HelixPaginatedRequestWithTotal of
    HelixPaginatedRequest.ts), holding what the constructor is given:
    [new HelixPaginatedRequest(callOptions, client, mapper)]. *)
Record HelixPaginatedRequest (T : Type) : Type := new_HelixPaginatedRequest {
  _callOptions : TwitchApiCallOptions;
  _requestClient : ApiClient;
  _mapper : RawData → T
}.
Arguments new_HelixPaginatedRequest {T}.
Arguments _callOptions {T}.
Arguments _requestClient {T}.
Arguments _mapper {T}.

Definition new_HelixPaginatedRequestWithTotal {T} :=
  @new_HelixPaginatedRequest T.

(** Modelled from the spec: Paginator, the cursor state that
    HelixPaginatedRequest.ts keeps for a traversal, created with
    [done = false]. *)
Record Paginator : Type := mkPaginator {
  lastCursor : option string;
  done : bool;
  currentCount : nat;
  paginator_total : option N
}.

Definition new_Paginator : Paginator :=
  {| lastCursor := None; done := false; currentCount := 0;
     paginator_total := None |}.

(** How a request carries the continuation cursor belongs to the Gateway
    contract, so it is a parameter of the traversal. *)
Variable withCursor : TwitchApiCallOptions → option string → TwitchApiCallOptions.

Definition page_cursor (page : HelixResponse) : option string :=
  pagination page ≫= cursor.

(** Modelled from the spec: the exhaustion test of HelixPaginatedRequest.ts,
    [cursor absent OR items empty]. *)
Definition exhausted (page : HelixResponse) : bool :=
  match page_cursor page, data page with
  | Some _, _ :: _ => false
  | _, _ => true
  end.

(** Modelled from the spec: the total kept by HelixPaginatedRequestWithTotal,
    that of the last page that reported one. *)
Definition seen_total (before : option N) (page : HelixResponse) : option N :=
  match total page with
  | Some t => Some t
  | None => before
  end.

(** Modelled from the spec: fetchNext of the Paginated Collection Traversal
    Engine (HelixPaginatedRequest.ts).  On an exhausted paginator it
    returns the empty sequence without a Gateway call; otherwise it fetches
    the page after [lastCursor], updates the paginator and returns the
    decoded items.  A Gateway failure propagates unchanged. *)
Definition fetchNext {T} (paginator : Paginator) (request : HelixPaginatedRequest T)
  : M (list T * Paginator) :=
  if done paginator then mret ([], paginator)
  else
    page ← callApi (_requestClient request)
             (withCursor (_callOptions request) (lastCursor paginator));
    mret (_mapper request <$> data page,
          {| lastCursor := page_cursor page;
             done := exhausted page;
             currentCount := currentCount paginator + length (data page);
             paginator_total := seen_total (paginator_total paginator) page |}).

(** Modelled from the spec: fetchAll of the Paginated Collection Traversal
    Engine.  It starts from a fresh paginator and calls fetchNext until a
    page is exhausted, appending each page's items in arrival order.  The
    remote service may hand out cursors for ever, so the loop is bounded by
    [fuel]: [None] means the bound was reached first. *)
Fixpoint fetchAll_from {T} (fuel : nat) (paginator : Paginator)
    (request : HelixPaginatedRequest T) (acc : list T)
    (w : Async.World Call Remote)
  : option (Completion (list T * option N) * Async.World Call Remote) :=
  match fuel with
  | O => None
  | S fuel' =>
      match fetchNext paginator request w with
      | (Rejected e, w') => Some (Rejected e, w')
      | (Resolved (items, paginator'), w') =>
          if done paginator'
          then Some (Resolved (acc ++ items, paginator_total paginator'), w')
          else fetchAll_from fuel' paginator' request (acc ++ items) w'
      end
  end.

Definition fetchAll {T} (fuel : nat) (request : HelixPaginatedRequest T)
    (w : Async.World Call Remote) :=
  fetchAll_from fuel new_Paginator request [] w.

(** The calls that ask for [pages] one after the other, the first with
    cursor [after], each later one with the cursor of the page before. *)
Fixpoint page_calls {T} (request : HelixPaginatedRequest T)
    (after : option string) (pages : list HelixResponse) : list Call :=
  match pages with
  | [] => []
  | page :: pages' =>
      (_requestClient request, withCursor (_callOptions request) after)
      :: page_calls request (page_cursor page) pages'
  end.

(** [arrives request s after pages s']: asked for the page after [after]
    and then for the page after each cursor it hands out, the Gateway in
    state [s] returns [pages] in this order and ends in state [s']; the
    last of them is the first exhausted one. *)
Inductive arrives {T} (request : HelixPaginatedRequest T)
  : Remote → option string → list HelixResponse → Remote → Prop :=
| arrives_last s after page s' :
    respond (_requestClient request, withCursor (_callOptions request) after) s
    = (Resolved page, s') →
    exhausted page = true →
    arrives request s after [page] s'
| arrives_more s after page s1 pages s' :
    respond (_requestClient request, withCursor (_callOptions request) after) s
    = (Resolved page, s1) →
    exhausted page = false →
    arrives request s1 (page_cursor page) pages s' →
    arrives request s after (page :: pages) s'.

(** The decoded items of a run of pages, in arrival order. *)
Definition all_items {T} (request : HelixPaginatedRequest T)
    (pages : list HelixResponse) : list T :=
  concat ((λ page, _mapper request <$> data page) <$> pages).

(** The total after a run of pages: the last one reported, if any. *)
Definition last_total (before : option N) (pages : list HelixResponse) : option N :=
  foldl seen_total before pages.

(** [this._client] *)
Variable _client : ApiClient.

Definition getSubscriptions (broadcaster : UserIdResolvable)
  : M (HelixPaginatedResultWithTotal HelixSubscription) :=
  result ← callApi _client
    {| url := "subscriptions";
       scope := Some "channel:read:subscriptions";
       type := Some Helix;
       query := {[ "broadcaster_id" := QString (extractUserId broadcaster) ]} |};
  mret (createPaginatedResultWithTotal result new_HelixSubscription _client).

Definition getSubscriptionsPaginated (broadcaster : UserIdResolvable)
  : HelixPaginatedRequest HelixSubscription :=
  new_HelixPaginatedRequestWithTotal
    {| url := "subscriptions";
       scope := Some "channel:read:subscriptions";
       type := None;
       query := {[ "broadcaster_id" := QString (extractUserId broadcaster) ]} |}
    _client
    (λ data, new_HelixSubscription data _client).

Definition getSubscriptionsForUsers (broadcaster : UserIdResolvable)
    (users : list UserIdResolvable) : M (list HelixSubscription) :=
  result ← callApi _client
    {| url := "subscriptions";
       scope := Some "channel:read:subscriptions";
       type := Some Helix;
       query := {[ "broadcaster_id" := QString (extractUserId broadcaster);
                   "user_id" := QStrings (extractUserId <$> users) ]} |};
  mret ((λ data, new_HelixSubscription data _client) <$> data result).

Definition getSubscriptionForUser (broadcaster user : UserIdResolvable)
  : M (Js HelixSubscription) :=
  list ← getSubscriptionsForUsers broadcaster [user];
  mret (if length_truthy list then js_index list 0 else js_null).

(** The union type ['broadcaster_id' | 'id'] of [_getSubscriptionEvents]. *)
Inductive EventsBy : Type := by_broadcaster_id | by_id.

Definition EventsBy_key (by_ : EventsBy) : string :=
  match by_ with
  | by_broadcaster_id => "broadcaster_id"
  | by_id => "id"
  end.

Definition _getSubscriptionEvents (by_ : EventsBy) (id : string)
  : M (HelixPaginatedResult HelixSubscriptionEvent) :=
  result ← callApi _client
    {| type := Some Helix;
       url := "subscriptions/events";
       scope := Some "channel:read:subscriptions";
       query := {[ EventsBy_key by_ := QString id ]} |};
  mret (createPaginatedResult result new_HelixSubscriptionEvent _client).

Definition getSubscriptionEventsForBroadcaster (broadcaster : UserIdResolvable)
  : M (HelixPaginatedResult HelixSubscriptionEvent) :=
  _getSubscriptionEvents by_broadcaster_id (extractUserId broadcaster).

Definition getSubscriptionEventsForBroadcasterPaginated
    (broadcaster : UserIdResolvable)
  : HelixPaginatedRequest HelixSubscriptionEvent :=
  new_HelixPaginatedRequest
    {| url := "subscriptions/events";
       scope := Some "channel:read:subscriptions";
       type := None;
       query := {[ "broadcaster_id" := QString (extractUserId broadcaster) ]} |}
    _client
    (λ data, new_HelixSubscriptionEvent data _client).

Definition getSubscriptionEventById (id : string)
  : M (Js HelixSubscriptionEvent) :=
  events ← _getSubscriptionEvents by_id id;
  mret (js_or_null (js_index (result_data events) 0)).

Definition checkUserSubscription (user broadcaster : UserIdResolvable)
  : M (Js HelixUserSubscription) :=
  Async.try_catch
    (result ← callApi _client
       {| type := Some Helix;
          url := "subscriptions/user";
          scope := Some "user:read:subscriptions";
          query := {[ "broadcaster_id" := QString (extractUserId broadcaster);
                      "user_id" := QString (extractUserId user) ]} |};
     mret (js_value (new_HelixUserSubscription (js_index (data result) 0) _client)))
    (λ e, if is_not_found e then mret js_null else Async.throw e).
End HelixSubscriptionApi.
Arguments mkPaginatedResult {T}.
Arguments result_data {T}.
Arguments result_cursor {T}.
Arguments mkPaginatedResultWithTotal {T}.
Arguments total_result_data {T}.
Arguments total_result_cursor {T}.
Arguments total_result_total {T}.
Arguments new_HelixPaginatedRequest {RawData ApiClient T} _ _ _ : rename.
Arguments _callOptions {RawData ApiClient T} _ : rename.
Arguments _requestClient {RawData ApiClient T} _ : rename.
Arguments _mapper {RawData ApiClient T} _ : rename.
End Helix.

(** ** The EventSub subscription to channel point redemptions *)

Module EventSub.
Section EventSubChannelRedemptionAddSubscription.
(** [Handler] is the callback type, [EventSubBase] the listener that owns
    the subscription, [ApiClient] its API client, [EventData] a raw
    redemption payload, [TransportOptions] what [_getTransportOptions]
    resolves to and [HelixEventSubSubscription] what a registration call
    resolves to. *)
Context {Handler EventSubBase ApiClient EventData TransportOptions
         HelixEventSubSubscription Remote : Type}.

(** [client._apiClient] *)
Variable _apiClient : EventSubBase → ApiClient.

(** Modelled from the spec: the typed event of
    EventSubChannelRedemptionAddEvent.ts, constructed as
    [new EventSubChannelRedemptionAddEvent(data, client)]. *)
Record EventSubChannelRedemptionAddEvent : Type :=
  new_EventSubChannelRedemptionAddEvent {
  EventSubChannelRedemptionAddEvent_data : EventData;
  EventSubChannelRedemptionAddEvent_client : ApiClient
}.

(** The constructor's parameters; [_rewardId?: string] is [None] when the
    argument is left out. *)
Record EventSubChannelRedemptionAddSubscription : Type :=
  new_EventSubChannelRedemptionAddSubscription {
  _handler : Handler;
  _client : EventSubBase;
  _userId : string;
  _rewardId : option string
}.

Definition id (this : EventSubChannelRedemptionAddSubscription) : string :=
  ("channel.channel_points_custom_reward_redemption.add." ++ _userId this)%string.

Definition transformData (this : EventSubChannelRedemptionAddSubscription)
    (data : EventData) : EventSubChannelRedemptionAddEvent :=
  new_EventSubChannelRedemptionAddEvent data (_apiClient (_client this)).

(** The two registration methods of [apiClient.eventSub] that [_subscribe]
    invokes, with the client they are invoked on and their arguments. *)
Inductive Call : Type :=
| subscribeToChannelRedemptionAddEventsForReward
    (api : ApiClient) (user reward : string) (transport : TransportOptions)
| subscribeToChannelRedemptionAddEvents
    (api : ApiClient) (user : string) (transport : TransportOptions).

Variable respond : Call → Remote → Completion HelixEventSubSubscription * Remote.
Local Abbreviation M := (Async.M Call Remote).

(** [this._getTransportOptions()] of the base class EventSubSubscription:
    it may consult the listener and may reject, and issues no registration
    call. *)
Variable getTransportOptions :
  EventSubChannelRedemptionAddSubscription → Remote →
  Completion TransportOptions * Remote.

Definition _getTransportOptions (this : EventSubChannelRedemptionAddSubscription)
  : M TransportOptions :=
  Async.quiet (getTransportOptions this).

(** [if (v)] on a [string | undefined]: the then-branch sees the narrowed,
    non-empty string. *)
Definition if_truthy (v : option string) : option string :=
  match v with
  | Some s => if string_truthy s then Some s else None
  | None => None
  end.

Definition _subscribe (this : EventSubChannelRedemptionAddSubscription)
  : M HelixEventSubSubscription :=
  match if_truthy (_rewardId this) with
  | Some rewardId =>
      transport ← _getTransportOptions this;
      Async.perform respond
        (subscribeToChannelRedemptionAddEventsForReward
           (_apiClient (_client this)) (_userId this) rewardId transport)
  | None =>
      transport ← _getTransportOptions this;
      Async.perform respond
        (subscribeToChannelRedemptionAddEvents
           (_apiClient (_client this)) (_userId this) transport)
  end.
End EventSubChannelRedemptionAddSubscription.
End EventSub.


(** ** Scripted Gateways for the worked examples *)

Module Scripted.
(** A Gateway whose state is the list of replies still to give: each call,
    whatever it asks, gets the next one; with none left the call is
    rejected. *)
Definition respond {Call Reply : Type} (call : Call)
    (script : list (Completion Reply))
  : Completion Reply * list (Completion Reply) :=
  match script with
  | reply :: script' => (reply, script')
  | [] => (Rejected (OtherError "no reply scripted"), [])
  end.

(** The Helix convention for the continuation cursor: the query parameter
    [after]. *)
Definition withCursor (options : TwitchApiCallOptions) (after : option string)
  : TwitchApiCallOptions :=
  match after with
  | Some c =>
      {| url := url options; scope := scope options; type := type options;
         query := <[ "after" := QString c ]> (query options) |}
  | None => options
  end.

(** A UserIdResolvable that already is the id string. *)
Definition extractUserId (user : string) : string := user.

(** A page of numbers with an optional continuation cursor and no total. *)
Definition page (items : list nat) (next : option string)
  : @Helix.HelixResponse nat :=
  {| Helix.data := items;
     Helix.pagination := Some {| Helix.cursor := next |};
     Helix.total := None |}.

(** A body without pagination holding raw items named by strings. *)
Definition body (items : list string) : @Helix.HelixResponse string :=
  {| Helix.data := items; Helix.pagination := None; Helix.total := None |}.

(** A paginated request for numbers, decoded as they are. *)
Definition numbers : @Helix.HelixPaginatedRequest nat string nat :=
  Helix.new_HelixPaginatedRequest
    {| url := "numbers"; scope := None; type := None; query := ∅ |}
    "client" (λ n, n).

(** A world that has seen no call yet. *)
Definition fresh {Call Remote : Type} (s : Remote) : Async.World Call Remote :=
  {| Async.remote := s; Async.issued := [] |}.

(** A listener whose transport options name the subscription they are for. *)
Definition getTransportOptions {Reply : Type}
    (this : @EventSub.EventSubChannelRedemptionAddSubscription nat string)
    (script : list (Completion Reply))
  : Completion string * list (Completion Reply) :=
  (Resolved ("webhook:" ++ EventSub.id this)%string, script).

(** The API client of a listener named by a string. *)
Definition _apiClient (listener : string) : string :=
  (listener ++ "._apiClient")%string.
End Scripted.

(** ** Vocabulary for statements about a method's one Gateway call *)

Section Settling.
Context {Call Reply Remote A : Type}.
Variable respond : Call → Remote → Completion Reply * Remote.

(** [rejection_passes_through run w call]: started in [w], the method
    that ended as [run] issued exactly the one call [call], left the remote
    service as that call left it, and, if the Gateway rejected the call,
    rejected with the same error. *)
Definition rejection_passes_through (run : Completion A * Async.World Call Remote)
    (w : Async.World Call Remote) (call : Call) : Prop :=
  Async.issued (snd run) = Async.issued w ++ [call]
  ∧ Async.remote (snd run) = snd (respond call (Async.remote w))
  ∧ ∀ e, fst (respond call (Async.remote w)) = Rejected e → fst run = Rejected e.
End Settling.

(** * The laws of the monad *)

Create HintDb async discriminated.
#[global] Hint Unfold mbind mret async_bind async_ret Async.bind Async.ret
  Async.throw Async.try_catch Async.perform Async.quiet Async.after : async.

(** Unfold the monad and split on how a named computation settles. *)
Ltac async_step :=
  autounfold with async;
  repeat match goal with
         | H : ?m = _ |- context [?m] => rewrite H
         end;
  cbn [fst snd].

Section AsyncLaws.
Context {Call Remote A B C : Type}.
Implicit Types (w : Async.World Call Remote) (m : Async.M Call Remote A).

Lemma async_ret_bind (a : A) (k : A → Async.M Call Remote B) w :
  (Async.ret a ≫= k) w = k a w.
Proof. reflexivity. Qed.

Lemma async_bind_ret m w : (m ≫= Async.ret) w = m w.
Proof. async_step. now destruct (m w) as [[a|e] w']. Qed.

Lemma async_bind_assoc m (k : A → Async.M Call Remote B)
    (k' : B → Async.M Call Remote C) w :
  ((m ≫= k) ≫= k') w = (m ≫= λ a, k a ≫= k') w.
Proof. async_step. now destruct (m w) as [[a|e] w']. Qed.

Lemma async_throw_bind e (k : A → Async.M Call Remote B) w :
  (Async.throw e ≫= k) w = Async.throw e w.
Proof. reflexivity. Qed.

Lemma async_try_ret (a : A) (h : Thrown → Async.M Call Remote A) w :
  Async.try_catch (Async.ret a) h w = Async.ret a w.
Proof. reflexivity. Qed.

Lemma async_try_throw e (h : Thrown → Async.M Call Remote A) w :
  Async.try_catch (Async.throw e) h w = h e w.
Proof. reflexivity. Qed.

(** Catching and rethrowing changes nothing. *)
Lemma async_try_rethrow m w : Async.try_catch m Async.throw w = m w.
Proof. async_step. now destruct (m w) as [[a|e] w']. Qed.
End AsyncLaws.

(** * Properties of the Helix subscription API *)

Section HelixProperties.
Context {RawData ApiClient UserIdResolvable Remote : Type}.
Variable extractUserId : UserIdResolvable → string.
Variable respond :
  @Helix.Call ApiClient → Remote →
  Completion (@Helix.HelixResponse RawData) * Remote.
Variable _client : ApiClient.

Local Abbreviation World := (Async.World (@Helix.Call ApiClient) Remote).
Local Abbreviation new_HelixSubscription :=
  (@Helix.new_HelixSubscription RawData ApiClient).
Local Abbreviation new_HelixSubscriptionEvent :=
  (@Helix.new_HelixSubscriptionEvent RawData ApiClient).
Local Abbreviation new_HelixUserSubscription :=
  (@Helix.new_HelixUserSubscription RawData ApiClient).
Local Abbreviation checkUserSubscription :=
  (Helix.checkUserSubscription extractUserId respond _client).
Local Abbreviation getSubscriptionsForUsers :=
  (Helix.getSubscriptionsForUsers extractUserId respond _client).
Local Abbreviation getSubscriptionForUser :=
  (Helix.getSubscriptionForUser extractUserId respond _client).
Local Abbreviation getSubscriptionEventById :=
  (Helix.getSubscriptionEventById respond _client).
Local Abbreviation getSubscriptions :=
  (Helix.getSubscriptions extractUserId respond _client).
Local Abbreviation getSubscriptionsPaginated :=
  (Helix.getSubscriptionsPaginated (RawData:=RawData) extractUserId _client).

(** One [callApi] logs the call and settles as the Gateway answers. *)
Lemma callApi_run client options (w : World) r s :
  respond (client, options) (Async.remote w) = (r, s) →
  Helix.callApi respond client options w = (r, Async.after w (client, options) s).
Proof.
  intros Hr. unfold Helix.callApi. now async_step.
Qed.

(** A resolved call followed by a continuation. *)
Lemma callApi_bind_resolved {B} client options (w : World) page s
    (k : Helix.HelixResponse → Async.M Helix.Call Remote B) :
  respond (client, options) (Async.remote w) = (Resolved page, s) →
  (Helix.callApi respond client options ≫= k) w
  = k page (Async.after w (client, options) s).
Proof.
  intros Hr%callApi_run. unfold mbind, async_bind, Async.bind. now rewrite Hr.
Qed.

(** A rejected call skips the continuation. *)
Lemma callApi_bind_rejected {B} client options (w : World) e s
    (k : Helix.HelixResponse → Async.M Helix.Call Remote B) :
  respond (client, options) (Async.remote w) = (Rejected e, s) →
  (Helix.callApi respond client options ≫= k) w
  = (Rejected e, Async.after w (client, options) s).
Proof.
  intros Hr%callApi_run. unfold mbind, async_bind, Async.bind. now rewrite Hr.
Qed.

(** What [checkUserSubscription] does with a rejected call, by the test
    in its catch clause. *)
Lemma checkUserSubscription_catch user broadcaster (w : World) e s :
  let call :=
    (_client,
     {| type := Some Helix;
        url := "subscriptions/user";
        scope := Some "user:read:subscriptions";
        query := {[ "broadcaster_id" := QString (extractUserId broadcaster);
                    "user_id" := QString (extractUserId user) ]} |}) in
  respond call (Async.remote w) = (Rejected e, s) →
  checkUserSubscription user broadcaster w
  = if is_not_found e
    then (Resolved js_null, Async.after w call s)
    else (Rejected e, Async.after w call s).
Proof.
  intros call Hr. unfold Helix.checkUserSubscription, Async.try_catch.
  rewrite (callApi_bind_rejected _ _ _ _ _ _ Hr).
  now destruct (is_not_found e).
Qed.

(** C2: when the Gateway call inside checkUserSubscription is rejected, a
    status-coded error with statusCode 404 becomes the result [null]; a
    status-coded error with any other code, and an error that is not
    status-coded, reach the caller as the very same error. *)
Theorem checkUserSubscription_rejected user broadcaster (w : World) e s :
  let call :=
    (_client,
     {| type := Some Helix;
        url := "subscriptions/user";
        scope := Some "user:read:subscriptions";
        query := {[ "broadcaster_id" := QString (extractUserId broadcaster);
                    "user_id" := QString (extractUserId user) ]} |}) in
  respond call (Async.remote w) = (Rejected e, s) →
  (∀ statusText body, e = HttpStatusCodeError 404 statusText body →
     checkUserSubscription user broadcaster w
     = (Resolved js_null, Async.after w call s))
  ∧ (∀ statusCode statusText body,
       e = HttpStatusCodeError statusCode statusText body → statusCode ≠ 404%Z →
       checkUserSubscription user broadcaster w
       = (Rejected e, Async.after w call s))
  ∧ (∀ message, e = OtherError message →
       checkUserSubscription user broadcaster w
       = (Rejected e, Async.after w call s)).
Proof.
  intros call Hr.
  rewrite (checkUserSubscription_catch _ _ _ _ _ Hr). fold call.
  repeat split.
  - intros t b ->. reflexivity.
  - intros c t b -> Hc. simpl. now destruct (Z.eqb_spec c 404).
  - intros m ->. reflexivity.
Qed.

(** C9: when the Gateway call inside checkUserSubscription resolves, the
    result is never [null]: it is a HelixUserSubscription built from
    [data[0]], which is [undefined] when the data list is empty. *)
Theorem checkUserSubscription_resolved_unguarded user broadcaster (w : World) page s :
  let call :=
    (_client,
     {| type := Some Helix;
        url := "subscriptions/user";
        scope := Some "user:read:subscriptions";
        query := {[ "broadcaster_id" := QString (extractUserId broadcaster);
                    "user_id" := QString (extractUserId user) ]} |}) in
  respond call (Async.remote w) = (Resolved page, s) →
  checkUserSubscription user broadcaster w
  = (Resolved (js_value (new_HelixUserSubscription
                           (js_index (Helix.data page) 0) _client)),
     Async.after w call s)
  ∧ fst (checkUserSubscription user broadcaster w) ≠ Resolved js_null
  ∧ (Helix.data page = [] →
     checkUserSubscription user broadcaster w
     = (Resolved (js_value (new_HelixUserSubscription js_undefined _client)),
        Async.after w call s)).
Proof.
  intros call Hr.
  assert (Hrun : checkUserSubscription user broadcaster w
                 = (Resolved (js_value (new_HelixUserSubscription
                                          (js_index (Helix.data page) 0) _client)),
                    Async.after w call s)).
  { unfold Helix.checkUserSubscription, Async.try_catch.
    now rewrite (callApi_bind_resolved _ _ _ _ _ _ Hr). }
  rewrite Hrun. repeat split.
  - simpl. intros H. inversion H.
  - intros ->. reflexivity.
Qed.

(** [getSubscriptionsForUsers] on a resolved call: one decoded entity per
    raw item. *)
Lemma getSubscriptionsForUsers_run broadcaster users (w : World) page s :
  let call :=
    (_client,
     {| url := "subscriptions";
        scope := Some "channel:read:subscriptions";
        type := Some Helix;
        query := {[ "broadcaster_id" := QString (extractUserId broadcaster);
                    "user_id" := QStrings (extractUserId <$> users) ]} |}) in
  respond call (Async.remote w) = (Resolved page, s) →
  getSubscriptionsForUsers broadcaster users w
  = (Resolved ((λ d, new_HelixSubscription d _client) <$> Helix.data page),
     Async.after w call s).
Proof.
  intros call Hr. unfold Helix.getSubscriptionsForUsers.
  now rewrite (callApi_bind_resolved _ _ _ _ _ _ Hr).
Qed.

(** [_getSubscriptionEvents] on a resolved call. *)
Lemma _getSubscriptionEvents_run by_ id (w : World) page s :
  let call :=
    (_client,
     {| type := Some Helix;
        url := "subscriptions/events";
        scope := Some "channel:read:subscriptions";
        query := {[ Helix.EventsBy_key by_ := QString id ]} |}) in
  respond call (Async.remote w) = (Resolved page, s) →
  Helix._getSubscriptionEvents respond _client by_ id w
  = (Resolved (Helix.createPaginatedResult page new_HelixSubscriptionEvent _client),
     Async.after w call s).
Proof.
  intros call Hr. unfold Helix._getSubscriptionEvents.
  now rewrite (callApi_bind_resolved _ _ _ _ _ _ Hr).
Qed.

(** C3: on a resolved Gateway call, getSubscriptionForUser and
    getSubscriptionEventById return [null] exactly when the data list of
    the response is empty, and otherwise the entity decoded from its first
    item. *)
Theorem single_entity_lookups :
  (∀ broadcaster user (w : World) page s,
     let call :=
       (_client,
        {| url := "subscriptions";
           scope := Some "channel:read:subscriptions";
           type := Some Helix;
           query := {[ "broadcaster_id" := QString (extractUserId broadcaster);
                       "user_id" := QStrings [extractUserId user] ]} |}) in
     respond call (Async.remote w) = (Resolved page, s) →
     ∃ v, getSubscriptionForUser broadcaster user w
          = (Resolved v, Async.after w call s)
          ∧ (v = js_null ↔ Helix.data page = [])
          ∧ (∀ d rest, Helix.data page = d :: rest →
               v = js_value (new_HelixSubscription d _client)))
  ∧ (∀ id (w : World) page s,
       let call :=
         (_client,
          {| type := Some Helix;
             url := "subscriptions/events";
             scope := Some "channel:read:subscriptions";
             query := {[ "id" := QString id ]} |}) in
       respond call (Async.remote w) = (Resolved page, s) →
       ∃ v, getSubscriptionEventById id w
            = (Resolved v, Async.after w call s)
            ∧ (v = js_null ↔ Helix.data page = [])
            ∧ (∀ d rest, Helix.data page = d :: rest →
                 v = js_value (new_HelixSubscriptionEvent d _client))).
Proof.
  split.
  - intros broadcaster user w page s call Hr.
    pose proof (getSubscriptionsForUsers_run broadcaster [user] w page s Hr) as Hrun.
    unfold Helix.getSubscriptionForUser, mbind, async_bind, Async.bind.
    rewrite Hrun. fold call.
    destruct (Helix.data page) as [|d rest]; simpl.
    + eexists. split; [reflexivity|]. split; [tauto|]. intros ? ? [=].
    + eexists. split; [reflexivity|]. split.
      * split; intros [=].
      * intros ? ? [= <- <-]. reflexivity.
  - intros id w page s call Hr.
    pose proof (_getSubscriptionEvents_run Helix.by_id id w page s Hr) as Hrun.
    unfold Helix.getSubscriptionEventById, mbind, async_bind, Async.bind.
    rewrite Hrun. fold call.
    destruct (Helix.data page) as [|d rest] eqn:Hd; simpl; rewrite Hd; simpl.
    + eexists. split; [reflexivity|]. split; [tauto|]. intros ? ? [=].
    + eexists. split; [reflexivity|]. split.
      * split; intros [=].
      * intros ? ? [= <- <-]. reflexivity.
Qed.

(** C8, amended: getSubscriptions issues one call, on [this._client], and
    getSubscriptionsPaginated hands call options to a paginator on the same
    client; the two agree on the url 'subscriptions', the scope
    'channel:read:subscriptions' and the query with broadcaster_id set to
    extractUserId(broadcaster), and differ in one field only: the call of
    getSubscriptions sets type to Helix, the options of
    getSubscriptionsPaginated set no type. *)
Theorem getSubscriptions_and_paginated_differ_in_type_only broadcaster (w : World) :
  let paginated := getSubscriptionsPaginated broadcaster in
  ∃ options,
    Async.issued (snd (getSubscriptions broadcaster w))
    = Async.issued w ++ [(_client, options)]
    ∧ Helix._requestClient paginated = _client
    ∧ url options = url (Helix._callOptions paginated)
    ∧ scope options = scope (Helix._callOptions paginated)
    ∧ query options = query (Helix._callOptions paginated)
    ∧ url options = "subscriptions"
    ∧ scope options = Some "channel:read:subscriptions"
    ∧ query options = {[ "broadcaster_id" := QString (extractUserId broadcaster) ]}
    ∧ type options = Some Helix
    ∧ type (Helix._callOptions paginated) = None
    ∧ options ≠ Helix._callOptions paginated
    ∧ {| url := url options; scope := scope options; type := None;
         query := query options |}
      = Helix._callOptions paginated.
Proof.
  intros paginated.
  exists {| url := "subscriptions";
            scope := Some "channel:read:subscriptions";
            type := Some Helix;
            query := {[ "broadcaster_id" := QString (extractUserId broadcaster) ]} |}.
  split.
  - unfold Helix.getSubscriptions, mbind, async_bind, Async.bind,
      Helix.callApi, Async.perform.
    destruct (respond _ (Async.remote w)) as [[page|e] s]; reflexivity.
  - repeat split. intros H. apply (f_equal type) in H. discriminate H.
Qed.
End HelixProperties.

(** * Properties of the paginated traversal *)

Section TraversalProperties.
Context {RawData ApiClient Remote T : Type}.
Variable respond :
  @Helix.Call ApiClient → Remote →
  Completion (@Helix.HelixResponse RawData) * Remote.
Variable withCursor : TwitchApiCallOptions → option string → TwitchApiCallOptions.
Variable request : @Helix.HelixPaginatedRequest RawData ApiClient T.

Local Abbreviation World := (Async.World (@Helix.Call ApiClient) Remote).
Local Abbreviation fetchNext := (Helix.fetchNext respond withCursor).
Local Abbreviation fetchAll_from := (Helix.fetchAll_from respond withCursor).
Local Abbreviation arrives := (Helix.arrives respond withCursor request).
Local Abbreviation page_calls := (Helix.page_calls withCursor request).

(** On an exhausted paginator [fetchNext] returns nothing and calls
    nothing. *)
Lemma fetchNext_done paginator (w : World) :
  Helix.done paginator = true →
  fetchNext paginator request w = (Resolved ([], paginator), w).
Proof. intros Hd. unfold Helix.fetchNext. now rewrite Hd. Qed.

(** One page fetched by [fetchNext] on a live paginator. *)
Lemma fetchNext_page paginator (w : World) page s :
  Helix.done paginator = false →
  respond (Helix._requestClient request,
           withCursor (Helix._callOptions request) (Helix.lastCursor paginator))
          (Async.remote w) = (Resolved page, s) →
  fetchNext paginator request w
  = (Resolved
       (Helix._mapper request <$> Helix.data page,
        {| Helix.lastCursor := Helix.page_cursor page;
           Helix.done := Helix.exhausted page;
           Helix.currentCount :=
             Helix.currentCount paginator + length (Helix.data page);
           Helix.paginator_total :=
             Helix.seen_total (Helix.paginator_total paginator) page |}),
     Async.after w
       (Helix._requestClient request,
        withCursor (Helix._callOptions request) (Helix.lastCursor paginator)) s).
Proof.
  intros Hd Hr. unfold Helix.fetchNext. rewrite Hd.
  unfold mbind, async_bind, Async.bind, Helix.callApi, Async.perform.
  now rewrite Hr.
Qed.

Lemma page_calls_length after pages :
  length (page_calls after pages) = length pages.
Proof.
  revert after. induction pages as [|page pages IH]; intros after; simpl; auto.
Qed.

(** The loop of [fetchAll] along a run of arriving pages. *)
Lemma fetchAll_from_arrives s after pages s' :
  arrives s after pages s' →
  ∀ fuel paginator acc (w : World),
    (length pages ≤ fuel)%nat →
    Helix.done paginator = false →
    Helix.lastCursor paginator = after →
    Async.remote w = s →
    fetchAll_from fuel paginator request acc w
    = Some (Resolved (acc ++ Helix.all_items request pages,
                      Helix.last_total (Helix.paginator_total paginator) pages),
            {| Async.remote := s';
               Async.issued := Async.issued w ++ page_calls after pages |}).
Proof.
  induction 1 as [s after page s' Hr Hex | s after page s1 pages s' Hr Hex Hrest IH];
    intros fuel paginator acc w Hfuel Hdone Hcur Hw; subst after s.
  - destruct fuel as [|fuel]; [simpl in Hfuel; lia|]. simpl.
    rewrite (fetchNext_page _ _ _ _ Hdone Hr). simpl. rewrite Hex.
    unfold Helix.all_items. simpl. now rewrite app_nil_r.
  - destruct fuel as [|fuel]; [simpl in Hfuel; lia|].
    simpl in Hfuel. simpl.
    rewrite (fetchNext_page _ _ _ _ Hdone Hr). simpl. rewrite Hex.
    rewrite IH; simpl; auto; [|lia].
    unfold Helix.all_items. simpl. rewrite <- !app_assoc. reflexivity.
Qed.
End TraversalProperties.

(** A scripted Gateway hands out its pages in order, so a script that
    starts with live pages [pre] followed by an exhausted page [last]
    makes exactly [pre ++ [last]] arrive and keeps the rest. *)
Lemma scripted_arrives {RawData ApiClient T : Type}
    (withCursor : TwitchApiCallOptions → option string → TwitchApiCallOptions)
    (request : @Helix.HelixPaginatedRequest RawData ApiClient T)
    (pre : list Helix.HelixResponse) last rest after :
  Forall (λ page, Helix.exhausted page = false) pre →
  Helix.exhausted last = true →
  Helix.arrives Scripted.respond withCursor request
    (Resolved <$> pre ++ last :: rest) after (pre ++ [last]) (Resolved <$> rest).
Proof.
  intros Hpre Hlast. revert after.
  induction Hpre as [|page pre Hpage _ IH]; intros after; simpl.
  - now apply Helix.arrives_last.
  - eapply Helix.arrives_more; [reflexivity | exact Hpage | apply IH].
Qed.

(** C7: when the Gateway, asked for one page after the other, returns
    [pages], the last of which is the first with an absent cursor or an empty
    item list, fetchAll (given fuel for that many pages) returns the
    concatenation of their item lists in arrival order and the last reported
    total, and has issued exactly one call per page, none after the
    exhausted one.  So against a stub Gateway that serves a fixed sequence
    of pages it consumes the pages up to the first exhausted one and leaves
    the rest unasked.  For pages with cursors "a", "b", "c", absent and
    items [1,2], [3], [4,5], [] and no total it returns [1,2,3,4,5] and an
    absent total after four calls. *)
Theorem fetchAll_concatenates_pages :
  (∀ (RawData ApiClient Remote T : Type)
     (respond : @Helix.Call ApiClient → Remote →
                Completion (@Helix.HelixResponse RawData) * Remote)
     (withCursor : TwitchApiCallOptions → option string → TwitchApiCallOptions)
     (request : @Helix.HelixPaginatedRequest RawData ApiClient T)
     (w : Async.World Helix.Call Remote) pages s' fuel,
     Helix.arrives respond withCursor request (Async.remote w) None pages s' →
     (length pages ≤ fuel)%nat →
     Helix.fetchAll respond withCursor fuel request w
     = Some (Resolved (Helix.all_items request pages, Helix.last_total None pages),
             {| Async.remote := s';
                Async.issued :=
                  Async.issued w ++ Helix.page_calls withCursor request None pages |})
     ∧ length (Helix.page_calls withCursor request None pages) = length pages)
  ∧ (∀ (RawData ApiClient T : Type)
       (withCursor : TwitchApiCallOptions → option string → TwitchApiCallOptions)
       (request : @Helix.HelixPaginatedRequest RawData ApiClient T)
       (pre : list Helix.HelixResponse) last rest issued fuel,
       Forall (λ page, Helix.exhausted page = false) pre →
       Helix.exhausted last = true →
       (length pre < fuel)%nat →
       Helix.fetchAll Scripted.respond withCursor fuel request
         {| Async.remote := Resolved <$> pre ++ last :: rest;
            Async.issued := issued |}
       = Some (Resolved (Helix.all_items request (pre ++ [last]),
                         Helix.last_total None (pre ++ [last])),
               {| Async.remote := Resolved <$> rest;
                  Async.issued :=
                    issued ++ Helix.page_calls withCursor request None
                                (pre ++ [last]) |}))
  ∧ (∀ fuel, (4 ≤ fuel)%nat →
       ∃ w', Helix.fetchAll Scripted.respond Scripted.withCursor fuel Scripted.numbers
               (Scripted.fresh
                  (Resolved <$> [Scripted.page [1; 2] (Some "a");
                                 Scripted.page [3] (Some "b");
                                 Scripted.page [4; 5] (Some "c");
                                 Scripted.page [] None]))
             = Some (Resolved ([1; 2; 3; 4; 5], None), w')
             ∧ length (Async.issued w') = 4).
Proof.
  split; [|split].
  - intros RawData ApiClient Remote T respond withCursor request w pages s' fuel
      Harr Hfuel.
    split; [|apply page_calls_length].
    unfold Helix.fetchAll.
    now rewrite (fetchAll_from_arrives _ _ _ _ _ _ _ Harr fuel Helix.new_Paginator [] w).
  - intros RawData ApiClient T withCursor request pre last rest issued fuel
      Hpre Hlast Hfuel.
    unfold Helix.fetchAll.
    rewrite (fetchAll_from_arrives _ _ _ _ _ _ _
               (scripted_arrives withCursor request pre last rest None Hpre Hlast)
               fuel Helix.new_Paginator []
               {| Async.remote := Resolved <$> pre ++ last :: rest;
                  Async.issued := issued |});
      try reflexivity.
    rewrite length_app. simpl. lia.
  - intros fuel Hfuel.
    do 4 (destruct fuel as [|fuel]; [lia|]).
    eexists. split; reflexivity.
Qed.

(** The general part of the theorem at work: three scripted pages, the last
    without a cursor, and a fourth that is never asked for. *)
Lemma fetchAll_concatenates_pages_witness :
  Helix.fetchAll Scripted.respond Scripted.withCursor 3 Scripted.numbers
    (Scripted.fresh
       (Resolved <$> [Scripted.page [1; 2] (Some "a");
                      Scripted.page [3] (Some "b");
                      Scripted.page [4; 5] None;
                      Scripted.page [6] None]))
  = Some (Resolved ([1; 2; 3; 4; 5], None),
          {| Async.remote := [Resolved (Scripted.page [6] None)];
             Async.issued :=
               [("client", Scripted.withCursor (Helix._callOptions Scripted.numbers) None);
                ("client", Scripted.withCursor (Helix._callOptions Scripted.numbers) (Some "a"));
                ("client", Scripted.withCursor (Helix._callOptions Scripted.numbers) (Some "b"))] |}).
Proof.
  refine (proj1 (proj1 fetchAll_concatenates_pages _ _ _ _
                   Scripted.respond Scripted.withCursor Scripted.numbers
                   (Scripted.fresh _)
                   [Scripted.page [1; 2] (Some "a");
                    Scripted.page [3] (Some "b");
                    Scripted.page [4; 5] None]
                   [Resolved (Scripted.page [6] None)] 3 _ _)).
  - apply Helix.arrives_more with (s1 := Resolved <$> [Scripted.page [3] (Some "b");
                                                       Scripted.page [4; 5] None;
                                                       Scripted.page [6] None]);
      [reflexivity | reflexivity |].
    apply Helix.arrives_more with (s1 := Resolved <$> [Scripted.page [4; 5] None;
                                                       Scripted.page [6] None]);
      [reflexivity | reflexivity |].
    apply Helix.arrives_last; reflexivity.
  - simpl. lia.
Defined.

(** * Properties of the redemption subscription *)

Section EventSubProperties.
Context {Handler EventSubBase ApiClient EventData TransportOptions
         HelixEventSubSubscription Remote : Type}.
Variable _apiClient : EventSubBase → ApiClient.
Variable respond :
  @EventSub.Call ApiClient TransportOptions → Remote →
  Completion HelixEventSubSubscription * Remote.
Variable getTransportOptions :
  @EventSub.EventSubChannelRedemptionAddSubscription Handler EventSubBase →
  Remote → Completion TransportOptions * Remote.

Local Abbreviation World :=
  (Async.World (@EventSub.Call ApiClient TransportOptions) Remote).
Local Abbreviation Subscription :=
  (@EventSub.EventSubChannelRedemptionAddSubscription Handler EventSubBase).
Local Abbreviation new_Subscription :=
  (@EventSub.new_EventSubChannelRedemptionAddSubscription Handler EventSubBase).
Local Abbreviation _subscribe :=
  (EventSub._subscribe _apiClient respond getTransportOptions).
Local Abbreviation ForReward :=
  (@EventSub.subscribeToChannelRedemptionAddEventsForReward ApiClient TransportOptions).
Local Abbreviation General :=
  (@EventSub.subscribeToChannelRedemptionAddEvents ApiClient TransportOptions).

(** The registration call that [_subscribe] builds once the transport
    options are known. *)
Lemma _subscribe_run (this : Subscription) (w : World) :
  _subscribe this w
  = match getTransportOptions this (Async.remote w) with
    | (Rejected e, s) =>
        (Rejected e, {| Async.remote := s; Async.issued := Async.issued w |})
    | (Resolved transport, s) =>
        let call :=
          match EventSub.if_truthy (EventSub._rewardId this) with
          | Some rewardId =>
              ForReward (_apiClient (EventSub._client this))
                (EventSub._userId this) rewardId transport
          | None =>
              General (_apiClient (EventSub._client this))
                (EventSub._userId this) transport
          end in
        (fst (respond call s),
         {| Async.remote := snd (respond call s);
            Async.issued := Async.issued w ++ [call] |})
    end.
Proof.
  unfold EventSub._subscribe.
  destruct (EventSub.if_truthy (EventSub._rewardId this)) as [rewardId|];
    unfold mbind, async_bind, Async.bind, EventSub._getTransportOptions,
      Async.quiet, Async.perform;
    destruct (getTransportOptions this (Async.remote w)) as [[transport|e] s];
    simpl; try reflexivity;
    match goal with |- context [respond ?c s] => now destruct (respond c s) end.
Qed.

Lemma if_truthy_spec (v : option string) :
  EventSub.if_truthy v
  = match v with
    | Some rewardId => if String.eqb rewardId "" then None else Some rewardId
    | None => None
    end.
Proof.
  destruct v as [r|]; [|reflexivity].
  unfold EventSub.if_truthy, string_truthy. now destruct (String.eqb r "").
Qed.

(** C4, amended: _subscribe first awaits the transport options; if that
    rejects, no registration call is issued.  Otherwise it issues exactly
    one call, determined by (userId, rewardId, transport options): the
    reward-specific one with (userId, rewardId, transport options) when
    rewardId is present and not the empty string, the general one with
    (userId, transport options) when rewardId is absent or empty. *)
Theorem subscribe_call_shape (this : Subscription) (w : World) :
  match getTransportOptions this (Async.remote w) with
  | (Rejected e, s) =>
      _subscribe this w
      = (Rejected e, {| Async.remote := s; Async.issued := Async.issued w |})
  | (Resolved transport, s) =>
      let call :=
        match EventSub._rewardId this with
        | Some rewardId =>
            if String.eqb rewardId ""
            then General (_apiClient (EventSub._client this))
                   (EventSub._userId this) transport
            else ForReward (_apiClient (EventSub._client this))
                   (EventSub._userId this) rewardId transport
        | None =>
            General (_apiClient (EventSub._client this))
              (EventSub._userId this) transport
        end in
      _subscribe this w
      = (fst (respond call s),
         {| Async.remote := snd (respond call s);
            Async.issued := Async.issued w ++ [call] |})
  end.
Proof.
  rewrite _subscribe_run, if_truthy_spec.
  destruct (getTransportOptions this (Async.remote w)) as [[transport|e] s];
    [|reflexivity].
  destruct (EventSub._rewardId this) as [rewardId|]; [|reflexivity].
  now destruct (String.eqb rewardId "").
Qed.

(** C10: with rewardId the empty string, _subscribe issues the general
    registration call with (userId, transport options), never a
    reward-specific one, and where the transport options of the instance
    are those of the instance without rewardId the two behave alike. *)
Theorem subscribe_empty_rewardId handler client userId (w : World) :
  let this := new_Subscription handler client userId (Some "") in
  let absent := new_Subscription handler client userId None in
  match getTransportOptions this (Async.remote w) with
  | (Rejected e, s) =>
      _subscribe this w
      = (Rejected e, {| Async.remote := s; Async.issued := Async.issued w |})
  | (Resolved transport, s) =>
      let call := General (_apiClient client) userId transport in
      _subscribe this w
      = (fst (respond call s),
         {| Async.remote := snd (respond call s);
            Async.issued := Async.issued w ++ [call] |})
  end
  ∧ (∀ api user reward transport,
       ForReward api user reward transport ∈ Async.issued (snd (_subscribe this w)) →
       ForReward api user reward transport ∈ Async.issued w)
  ∧ (getTransportOptions this (Async.remote w)
     = getTransportOptions absent (Async.remote w) →
     _subscribe this w = _subscribe absent w).
Proof.
  intros this absent. rewrite !_subscribe_run. simpl.
  split; [|split].
  - now destruct (getTransportOptions this (Async.remote w)) as [[transport|e] s].
  - intros api user reward transport.
    destruct (getTransportOptions this (Async.remote w)) as [[t|e] s]; simpl; auto.
    rewrite elem_of_app, list_elem_of_singleton. intros [H|H]; [exact H|discriminate].
  - intros ->. reflexivity.
Qed.

(** C5: the identity is a function of the defining parameters alone: two
    instances with the same userId and the same rewardId have the same
    identity string, whatever their handlers and clients. *)
Theorem id_deterministic (a b : Subscription) :
  EventSub._userId a = EventSub._userId b →
  EventSub._rewardId a = EventSub._rewardId b →
  EventSub.id a = EventSub.id b.
Proof.
  intros Hu _. unfold EventSub.id. now rewrite Hu.
Qed.

(** C1: the identity is built from userId alone, so an instance with a
    rewardId and one without, for the same userId, get the same identity;
    for userId "61369223" and rewardId "r1" both are
    channel.channel_points_custom_reward_redemption.add.61369223, which does
    not include "r1". *)
Theorem id_ignores_rewardId :
  (∀ handler handler' client client' userId rewardId,
     EventSub.id (new_Subscription handler client userId (Some rewardId))
     = EventSub.id (new_Subscription handler' client' userId None))
  ∧ (∀ handler client,
       EventSub.id (new_Subscription handler client "61369223" (Some "r1"))
       = "channel.channel_points_custom_reward_redemption.add.61369223"
       ∧ EventSub.id (new_Subscription handler client "61369223" None)
         = "channel.channel_points_custom_reward_redemption.add.61369223"
       ∧ includes
           (EventSub.id (new_Subscription handler client "61369223" (Some "r1")))
           "r1" = false).
Proof.
  split.
  - reflexivity.
  - intros handler client. repeat split; reflexivity.
Qed.
End EventSubProperties.

(** C6: on a resolved Gateway call getSubscriptionsForUsers returns one
    decoded entity per raw item of the data list, in the same order, each
    holding the client it was decoded with; the event that transformData
    produces holds the payload and the listener's API client. *)
Theorem decoded_entities_keep_order_and_client :
  (∀ (RawData ApiClient UserIdResolvable Remote : Type)
     (extractUserId : UserIdResolvable → string)
     (respond : @Helix.Call ApiClient → Remote →
                Completion (@Helix.HelixResponse RawData) * Remote)
     (_client : ApiClient) broadcaster users
     (w : Async.World Helix.Call Remote) page s,
     let call :=
       (_client,
        {| url := "subscriptions";
           scope := Some "channel:read:subscriptions";
           type := Some Helix;
           query := {[ "broadcaster_id" := QString (extractUserId broadcaster);
                       "user_id" := QStrings (extractUserId <$> users) ]} |}) in
     respond call (Async.remote w) = (Resolved page, s) →
     ∃ entities,
       Helix.getSubscriptionsForUsers extractUserId respond _client broadcaster users w
       = (Resolved entities, Async.after w call s)
       ∧ length entities = length (Helix.data page)
       ∧ (∀ i, entities !! i
               = (λ d, Helix.new_HelixSubscription d _client) <$> Helix.data page !! i)
       ∧ (∀ entity, entity ∈ entities → Helix.HelixSubscription_client entity = _client))
  ∧ (∀ (Handler EventSubBase ApiClient EventData : Type)
       (_apiClient : EventSubBase → ApiClient)
       (this : @EventSub.EventSubChannelRedemptionAddSubscription Handler EventSubBase)
       (data : EventData),
       EventSub.EventSubChannelRedemptionAddEvent_client
         (EventSub.transformData _apiClient this data)
       = _apiClient (EventSub._client this)
       ∧ EventSub.EventSubChannelRedemptionAddEvent_data
           (EventSub.transformData _apiClient this data)
         = data).
Proof.
  split.
  - intros RawData ApiClient UserIdResolvable Remote extractUserId respond _client
      broadcaster users w page s call Hr.
    eexists. split; [exact (getSubscriptionsForUsers_run _ _ _ _ _ _ _ _ Hr)|].
    split; [apply length_fmap|]. split.
    + intros i. apply list_lookup_fmap.
    + intros entity [d [-> _]]%list_elem_of_fmap. reflexivity.
  - intros. split; reflexivity.
Qed.

(** * Worked examples *)

Lemma checkUserSubscription_rejected_witness :
  fst (Helix.checkUserSubscription Scripted.extractUserId Scripted.respond
         "client" "user" "broadcaster"
         (Scripted.fresh
            [Rejected (A:=@Helix.HelixResponse string)
               (HttpStatusCodeError 404 "Not Found" "")]))
  = Resolved js_null
  ∧ fst (Helix.checkUserSubscription Scripted.extractUserId Scripted.respond
           "client" "user" "broadcaster"
           (Scripted.fresh
              [Rejected (A:=@Helix.HelixResponse string)
                 (HttpStatusCodeError 401 "Unauthorized" "")]))
    = Rejected (HttpStatusCodeError 401 "Unauthorized" "")
  ∧ fst (Helix.checkUserSubscription Scripted.extractUserId Scripted.respond
           "client" "user" "broadcaster"
           (Scripted.fresh
              [Rejected (A:=@Helix.HelixResponse string)
                 (OtherError "socket hang up")]))
    = Rejected (OtherError "socket hang up").
Proof.
  split; [|split].
  - now rewrite (proj1 (checkUserSubscription_rejected
                          Scripted.extractUserId Scripted.respond "client"
                          "user" "broadcaster"
                          (Scripted.fresh [Rejected (A:=@Helix.HelixResponse string) (HttpStatusCodeError 404 "Not Found" "")])
                          (HttpStatusCodeError 404 "Not Found" "") [] eq_refl)
                   "Not Found" "" eq_refl).
  - rewrite (proj1 (proj2 (checkUserSubscription_rejected
                             Scripted.extractUserId Scripted.respond "client"
                             "user" "broadcaster"
                             (Scripted.fresh [Rejected (A:=@Helix.HelixResponse string) (HttpStatusCodeError 401 "Unauthorized" "")])
                             (HttpStatusCodeError 401 "Unauthorized" "") [] eq_refl))
               401%Z "Unauthorized" "" eq_refl); [reflexivity | discriminate].
  - now rewrite (proj2 (proj2 (checkUserSubscription_rejected
                                 Scripted.extractUserId Scripted.respond "client"
                                 "user" "broadcaster"
                                 (Scripted.fresh [Rejected (A:=@Helix.HelixResponse string) (OtherError "socket hang up")])
                                 (OtherError "socket hang up") [] eq_refl))
                   "socket hang up" eq_refl).
Defined.

Lemma checkUserSubscription_resolved_unguarded_witness :
  fst (Helix.checkUserSubscription Scripted.extractUserId Scripted.respond
         "client" "user" "broadcaster"
         (Scripted.fresh [Resolved (Scripted.body [])]))
  = Resolved (js_value (Helix.new_HelixUserSubscription js_undefined "client")).
Proof.
  now rewrite (proj2 (proj2 (checkUserSubscription_resolved_unguarded
                               Scripted.extractUserId Scripted.respond "client"
                               "user" "broadcaster"
                               (Scripted.fresh [Resolved (Scripted.body [])])
                               (Scripted.body []) [] eq_refl))
                 eq_refl).
Defined.

Lemma single_entity_lookups_witness :
  (∃ v, fst (Helix.getSubscriptionForUser Scripted.extractUserId Scripted.respond
               "client" "broadcaster" "user"
               (Scripted.fresh [Resolved (Scripted.body ["sub-1"])]))
        = Resolved v
        ∧ v = js_value (Helix.new_HelixSubscription "sub-1" "client"))
  ∧ (∃ v, fst (Helix.getSubscriptionEventById Scripted.respond "client" "event-7"
                 (Scripted.fresh [Resolved (Scripted.body [])]))
          = Resolved v
          ∧ v = js_null).
Proof.
  split.
  - destruct (proj1 (single_entity_lookups Scripted.extractUserId Scripted.respond "client")
                "broadcaster" "user"
                (Scripted.fresh [Resolved (Scripted.body ["sub-1"])])
                (Scripted.body ["sub-1"]) []
                eq_refl) as (v & Hrun & _ & Hfirst).
    exists v. rewrite Hrun. split; [reflexivity|].
    exact (Hfirst "sub-1" [] eq_refl).
  - destruct (proj2 (single_entity_lookups Scripted.extractUserId Scripted.respond "client")
                "event-7" (Scripted.fresh [Resolved (Scripted.body [])])
                (Scripted.body []) []
                eq_refl) as (v & Hrun & Hnull & _).
    exists v. rewrite Hrun. split; [reflexivity|].
    exact (proj2 Hnull eq_refl).
Defined.

Lemma decoded_entities_keep_order_and_client_witness :
  ∃ entities,
    fst (Helix.getSubscriptionsForUsers Scripted.extractUserId Scripted.respond
           "client" "broadcaster" ["alice"; "bob"]
           (Scripted.fresh [Resolved (Scripted.body ["sub-alice"; "sub-bob"])]))
    = Resolved entities
    ∧ length entities = 2
    ∧ entities !! 1 = Some (Helix.new_HelixSubscription "sub-bob" "client").
Proof.
  destruct (proj1 decoded_entities_keep_order_and_client _ _ _ _
              Scripted.extractUserId Scripted.respond "client" "broadcaster"
              ["alice"; "bob"]
              (Scripted.fresh [Resolved (Scripted.body ["sub-alice"; "sub-bob"])])
              (Scripted.body ["sub-alice"; "sub-bob"]) [] eq_refl)
    as (entities & Hrun & Hlen & Hnth & _).
  exists entities. rewrite Hrun. split; [reflexivity|].
  split; [exact Hlen|]. exact (Hnth 1).
Defined.

Lemma id_deterministic_witness :
  EventSub.id (EventSub.new_EventSubChannelRedemptionAddSubscription
                 1 "listener-a" "61369223" (Some "r1"))
  = EventSub.id (EventSub.new_EventSubChannelRedemptionAddSubscription
                   2 "listener-b" "61369223" (Some "r1")).
Proof.
  apply (id_deterministic
           (EventSub.new_EventSubChannelRedemptionAddSubscription
              1 "listener-a" "61369223" (Some "r1"))
           (EventSub.new_EventSubChannelRedemptionAddSubscription
              2 "listener-b" "61369223" (Some "r1")));
    reflexivity.
Defined.

Lemma subscribe_empty_rewardId_witness :
  EventSub._subscribe Scripted._apiClient Scripted.respond
    Scripted.getTransportOptions
    (EventSub.new_EventSubChannelRedemptionAddSubscription
       0 "listener" "61369223" (Some ""))
    (Scripted.fresh [Resolved "remote-subscription-1"])
  = EventSub._subscribe Scripted._apiClient Scripted.respond
      Scripted.getTransportOptions
      (EventSub.new_EventSubChannelRedemptionAddSubscription
         0 "listener" "61369223" None)
      (Scripted.fresh [Resolved "remote-subscription-1"]).
Proof.
  apply (proj2 (proj2 (subscribe_empty_rewardId
                         Scripted._apiClient Scripted.respond
                         Scripted.getTransportOptions
                         0 "listener" "61369223"
                         (Scripted.fresh [Resolved "remote-subscription-1"])))).
  reflexivity.
Defined.

(** With rewardId present but empty, the call issued is the general one,
    not the reward-specific one. *)
Lemma subscribe_present_rewardId_counterexample :
  let this :=
    EventSub.new_EventSubChannelRedemptionAddSubscription
      0 "listener" "61369223" (Some "") in
  let transport :=
    "webhook:channel.channel_points_custom_reward_redemption.add.61369223" in
  let issued :=
    Async.issued
      (snd (EventSub._subscribe Scripted._apiClient Scripted.respond
              Scripted.getTransportOptions this
              (Scripted.fresh [Resolved "remote-subscription-1"]))) in
  EventSub._rewardId this = Some ""
  ∧ issued = [EventSub.subscribeToChannelRedemptionAddEvents
                "listener._apiClient" "61369223" transport]
  ∧ issued ≠ [EventSub.subscribeToChannelRedemptionAddEventsForReward
                "listener._apiClient" "61369223" "" transport].
Proof.
  repeat split. discriminate.
Qed.

(** The catch test of [checkUserSubscription] holds of the 404 status
    errors only. *)
Lemma is_not_found_true e :
  is_not_found e = true →
  ∃ statusText body, e = HttpStatusCodeError 404 statusText body.
Proof.
  destruct e as [statusCode statusText body | message]; simpl; [|discriminate].
  intros ->%Z.eqb_eq. eauto.
Qed.

(** * Further properties of the Helix subscription API *)

Section HelixRequests.
Context {RawData ApiClient UserIdResolvable Remote : Type}.
Variable extractUserId : UserIdResolvable → string.
Variable respond :
  @Helix.Call ApiClient → Remote →
  Completion (@Helix.HelixResponse RawData) * Remote.
Variable _client : ApiClient.

Local Abbreviation World := (Async.World (@Helix.Call ApiClient) Remote).
Local Abbreviation checkUserSubscription :=
  (Helix.checkUserSubscription extractUserId respond _client).
Local Abbreviation getSubscriptions :=
  (Helix.getSubscriptions extractUserId respond _client).
Local Abbreviation getSubscriptionsForUsers :=
  (Helix.getSubscriptionsForUsers extractUserId respond _client).
Local Abbreviation getSubscriptionForUser :=
  (Helix.getSubscriptionForUser extractUserId respond _client).
Local Abbreviation getSubscriptionEventsForBroadcaster :=
  (Helix.getSubscriptionEventsForBroadcaster extractUserId respond _client).
Local Abbreviation getSubscriptionEventsForBroadcasterPaginated :=
  (Helix.getSubscriptionEventsForBroadcasterPaginated (RawData:=RawData)
     extractUserId _client).
Local Abbreviation getSubscriptionsPaginated :=
  (Helix.getSubscriptionsPaginated (RawData:=RawData) extractUserId _client).
Local Abbreviation getSubscriptionEventById :=
  (Helix.getSubscriptionEventById respond _client).

(** A call followed by a pure decoding step, in full. *)
Lemma callApi_then_decode {B} client options (f : Helix.HelixResponse → B) (w : World) :
  (Helix.callApi respond client options ≫= λ result, mret (f result)) w
  = (match fst (respond (client, options) (Async.remote w)) with
     | Resolved page => Resolved (f page)
     | Rejected e => Rejected e
     end,
     Async.after w (client, options) (snd (respond (client, options) (Async.remote w)))).
Proof.
  destruct (respond (client, options) (Async.remote w)) as [[page|e] s] eqn:Hr.
  - now rewrite (callApi_bind_resolved _ _ _ _ _ _ _ Hr).
  - now rewrite (callApi_bind_rejected _ _ _ _ _ _ _ Hr).
Qed.

Lemma decode_passes_rejection_through {B} client options
    (f : Helix.HelixResponse → B) (w : World) :
  rejection_passes_through respond
    ((Helix.callApi respond client options ≫= λ result, mret (f result)) w)
    w (client, options).
Proof.
  rewrite callApi_then_decode. unfold rejection_passes_through. simpl.
  repeat split. now intros e ->.
Qed.

(** A further pure step after a method keeps the rejection passing
    through. *)
Lemma rejection_passes_through_then {A B} (m : Async.M Helix.Call Remote A)
    (f : A → B) (w : World) call :
  rejection_passes_through respond (m w) w call →
  rejection_passes_through respond ((m ≫= λ a, mret (f a)) w) w call.
Proof.
  unfold rejection_passes_through. async_step.
  intros (Hi & Hs & Hr). destruct (m w) as [[a|e] w']; simpl in *.
  - repeat split; auto. intros e He. discriminate (Hr e He).
  - repeat split; auto. intros e' He. now injection (Hr e' He) as ->.
Qed.

(** X1: the methods without a catch clause issue exactly one Gateway call,
    leave the remote service as that call left it and, when the Gateway
    rejects the call, reject with the same error, a 404 included. *)
Theorem lookups_pass_gateway_rejection_through broadcaster users user id (w : World) :
  rejection_passes_through respond (getSubscriptions broadcaster w) w
    (_client,
     {| url := "subscriptions";
        scope := Some "channel:read:subscriptions";
        type := Some Helix;
        query := {[ "broadcaster_id" := QString (extractUserId broadcaster) ]} |})
  ∧ rejection_passes_through respond (getSubscriptionsForUsers broadcaster users w) w
      (_client,
       {| url := "subscriptions";
          scope := Some "channel:read:subscriptions";
          type := Some Helix;
          query := {[ "broadcaster_id" := QString (extractUserId broadcaster);
                      "user_id" := QStrings (extractUserId <$> users) ]} |})
  ∧ rejection_passes_through respond (getSubscriptionForUser broadcaster user w) w
      (_client,
       {| url := "subscriptions";
          scope := Some "channel:read:subscriptions";
          type := Some Helix;
          query := {[ "broadcaster_id" := QString (extractUserId broadcaster);
                      "user_id" := QStrings [extractUserId user] ]} |})
  ∧ rejection_passes_through respond
      (getSubscriptionEventsForBroadcaster broadcaster w) w
      (_client,
       {| type := Some Helix;
          url := "subscriptions/events";
          scope := Some "channel:read:subscriptions";
          query := {[ "broadcaster_id" := QString (extractUserId broadcaster) ]} |})
  ∧ rejection_passes_through respond (getSubscriptionEventById id w) w
      (_client,
       {| type := Some Helix;
          url := "subscriptions/events";
          scope := Some "channel:read:subscriptions";
          query := {[ "id" := QString id ]} |}).
Proof.
  repeat split_and.
  - apply decode_passes_rejection_through.
  - apply decode_passes_rejection_through.
  - unfold Helix.getSubscriptionForUser.
    apply rejection_passes_through_then, decode_passes_rejection_through.
  - apply decode_passes_rejection_through.
  - unfold Helix.getSubscriptionEventById.
    apply rejection_passes_through_then, decode_passes_rejection_through.
Qed.

(** The run of [checkUserSubscription], whatever the Gateway answers. *)
Lemma checkUserSubscription_run user broadcaster (w : World) :
  let call :=
    (_client,
     {| type := Some Helix;
        url := "subscriptions/user";
        scope := Some "user:read:subscriptions";
        query := {[ "broadcaster_id" := QString (extractUserId broadcaster);
                    "user_id" := QString (extractUserId user) ]} |}) in
  checkUserSubscription user broadcaster w
  = (match fst (respond call (Async.remote w)) with
     | Resolved page =>
         Resolved (js_value (Helix.new_HelixUserSubscription
                               (js_index (Helix.data page) 0) _client))
     | Rejected e => if is_not_found e then Resolved js_null else Rejected e
     end,
     Async.after w call (snd (respond call (Async.remote w)))).
Proof.
  intros call. unfold Helix.checkUserSubscription, Async.try_catch.
  rewrite callApi_then_decode. fold call.
  destruct (fst (respond call (Async.remote w))) as [page|e]; [reflexivity|].
  now destruct (is_not_found e).
Qed.

(** X2: checkUserSubscription never rejects with a 404 status error. *)
Theorem checkUserSubscription_never_rejects_not_found user broadcaster (w : World)
    statusText body :
  fst (checkUserSubscription user broadcaster w)
  ≠ Rejected (HttpStatusCodeError 404 statusText body).
Proof.
  rewrite checkUserSubscription_run. simpl.
  destruct (fst (respond _ (Async.remote w))) as [page|e]; [discriminate|].
  destruct (is_not_found e) eqn:He; [discriminate|].
  intros [= ->]. discriminate He.
Qed.

(** X3: checkUserSubscription answers [null] only when the Gateway rejected
    its call with a 404 status error. *)
Theorem checkUserSubscription_null_only_on_not_found user broadcaster (w : World) :
  fst (checkUserSubscription user broadcaster w) = Resolved js_null →
  ∃ statusText body,
    fst (respond
           (_client,
            {| type := Some Helix;
               url := "subscriptions/user";
               scope := Some "user:read:subscriptions";
               query := {[ "broadcaster_id" := QString (extractUserId broadcaster);
                           "user_id" := QString (extractUserId user) ]} |})
           (Async.remote w))
    = Rejected (HttpStatusCodeError 404 statusText body).
Proof.
  rewrite checkUserSubscription_run. simpl.
  destruct (fst (respond _ (Async.remote w))) as [page|e]; [discriminate|].
  destruct (is_not_found e) eqn:He; [|discriminate].
  intros _. apply is_not_found_true in He as (t & b & ->). eauto.
Qed.

(** X4: checkUserSubscription issues exactly one call whatever the outcome, to
    subscriptions/user under the scope user:read:subscriptions; its query
    has the two keys broadcaster_id, the id of the second argument, and
    user_id, the id of the first, and the remote service is left as that
    call left it. *)
Theorem checkUserSubscription_request user broadcaster (w : World) :
  ∃ options,
    Async.issued (snd (checkUserSubscription user broadcaster w))
    = Async.issued w ++ [(_client, options)]
    ∧ Async.remote (snd (checkUserSubscription user broadcaster w))
      = snd (respond (_client, options) (Async.remote w))
    ∧ url options = "subscriptions/user"
    ∧ scope options = Some "user:read:subscriptions"
    ∧ type options = Some Helix
    ∧ query options !! "broadcaster_id" = Some (QString (extractUserId broadcaster))
    ∧ query options !! "user_id" = Some (QString (extractUserId user))
    ∧ dom (query options) = ({[ "broadcaster_id"; "user_id" ]} : gset string).
Proof.
  eexists. rewrite checkUserSubscription_run. simpl.
  split; [reflexivity|]. split; [reflexivity|]. simpl.
  split; [reflexivity|]. split; [reflexivity|]. split; [reflexivity|].
  split; [apply lookup_insert_eq|].
  split; [now rewrite lookup_insert_ne, lookup_singleton_eq|].
  now rewrite dom_insert_L, dom_singleton_L.
Qed.

(** X5: getSubscriptionsForUsers sends, under user_id, the ids of the users in
    the order given, one per user, beside the broadcaster_id and nothing
    else; with no users it still issues its call, with an empty user_id
    list. *)
Theorem getSubscriptionsForUsers_request broadcaster users (w : World) :
  (∃ options ids,
     Async.issued (snd (getSubscriptionsForUsers broadcaster users w))
     = Async.issued w ++ [(_client, options)]
     ∧ query options !! "user_id" = Some (QStrings ids)
     ∧ length ids = length users
     ∧ (∀ i, ids !! i = extractUserId <$> users !! i)
     ∧ query options !! "broadcaster_id" = Some (QString (extractUserId broadcaster))
     ∧ dom (query options) = ({[ "broadcaster_id"; "user_id" ]} : gset string))
  ∧ (∃ options,
       Async.issued (snd (getSubscriptionsForUsers broadcaster [] w))
       = Async.issued w ++ [(_client, options)]
       ∧ query options !! "user_id" = Some (QStrings [])).
Proof.
  split.
  - eexists _, (extractUserId <$> users).
    unfold Helix.getSubscriptionsForUsers. rewrite callApi_then_decode. simpl.
    split; [reflexivity|]. simpl.
    split; [now rewrite lookup_insert_ne, lookup_singleton_eq|].
    split; [apply length_fmap|].
    split; [intros i; apply list_lookup_fmap|].
    split; [apply lookup_insert_eq|].
    now rewrite dom_insert_L, dom_singleton_L.
  - eexists.
    unfold Helix.getSubscriptionsForUsers. rewrite callApi_then_decode. simpl.
    split; [reflexivity|]. simpl.
    now rewrite lookup_insert_ne, lookup_singleton_eq.
Qed.

(** X6: the query of [_getSubscriptionEvents] has the one key it is asked to
    filter by: looking up an event by id sends no broadcaster_id, and
    listing a broadcaster's events sends no id. *)
Theorem subscription_events_query_has_one_key broadcaster id (w : World) :
  (∀ by_ key,
     ∃ options,
       Async.issued (snd (Helix._getSubscriptionEvents respond _client by_ id w))
       = Async.issued w ++ [(_client, options)]
       ∧ query options !! key
         = if decide (key = Helix.EventsBy_key by_) then Some (QString id) else None)
  ∧ (∃ options,
       Async.issued (snd (getSubscriptionEventById id w))
       = Async.issued w ++ [(_client, options)]
       ∧ query options !! "id" = Some (QString id)
       ∧ query options !! "broadcaster_id" = None)
  ∧ (∃ options,
       Async.issued (snd (getSubscriptionEventsForBroadcaster broadcaster w))
       = Async.issued w ++ [(_client, options)]
       ∧ query options !! "broadcaster_id" = Some (QString (extractUserId broadcaster))
       ∧ query options !! "id" = None).
Proof.
  assert (Hrun : ∀ by_ id',
             Async.issued (snd (Helix._getSubscriptionEvents respond _client by_ id' w))
             = Async.issued w
               ++ [(_client,
                    {| type := Some Helix;
                       url := "subscriptions/events";
                       scope := Some "channel:read:subscriptions";
                       query := {[ Helix.EventsBy_key by_ := QString id' ]} |})]).
  { intros by_ id'. unfold Helix._getSubscriptionEvents.
    now rewrite callApi_then_decode. }
  split; [|split].
  - intros by_ key. eexists. split; [apply Hrun|]. simpl.
    case_decide as Hk.
    + subst key. apply lookup_singleton_eq.
    + apply lookup_singleton_ne. congruence.
  - eexists. split.
    + unfold Helix.getSubscriptionEventById. async_step.
      specialize (Hrun Helix.by_id id).
      destruct (Helix._getSubscriptionEvents respond _client Helix.by_id id w)
        as [[events|e] w']; exact Hrun.
    + simpl. split; [apply lookup_singleton_eq | now apply lookup_singleton_ne].
  - eexists. split; [apply Hrun|]. simpl.
    split; [apply lookup_singleton_eq | now apply lookup_singleton_ne].
Qed.

(** X7: getSubscriptionEventsForBroadcaster issues one call whose url, scope
    and query are those of the call options that
    getSubscriptionEventsForBroadcasterPaginated gives its paginator, built
    on the same client. *)
Theorem subscription_events_same_request_as_paginated broadcaster (w : World) :
  let paginated := getSubscriptionEventsForBroadcasterPaginated broadcaster in
  ∃ options,
    Async.issued (snd (getSubscriptionEventsForBroadcaster broadcaster w))
    = Async.issued w ++ [(_client, options)]
    ∧ Helix._requestClient paginated = _client
    ∧ url options = url (Helix._callOptions paginated)
    ∧ scope options = scope (Helix._callOptions paginated)
    ∧ query options = query (Helix._callOptions paginated).
Proof.
  intros paginated. eexists. split.
  - unfold Helix.getSubscriptionEventsForBroadcaster, Helix._getSubscriptionEvents.
    now rewrite callApi_then_decode.
  - repeat split.
Qed.

(** X8: getSubscriptionForUser is getSubscriptionsForUsers on the one-user list
    followed by taking the first entity: it rejects exactly as that does,
    answers [null] when that resolves to no entity and otherwise the first
    entity, whatever follows it; it never answers [undefined]. *)
Theorem getSubscriptionForUser_takes_first broadcaster user (w : World) :
  getSubscriptionForUser broadcaster user w
  = match getSubscriptionsForUsers broadcaster [user] w with
    | (Resolved [], w') => (Resolved js_null, w')
    | (Resolved (first :: _), w') => (Resolved (js_value first), w')
    | (Rejected e, w') => (Rejected e, w')
    end.
Proof.
  unfold Helix.getSubscriptionForUser. async_step.
  destruct (getSubscriptionsForUsers broadcaster [user] w) as [[[|first rest]|e] w'];
    reflexivity.
Qed.

(** X9: what getSubscriptionsForUsers decodes from a raw item is what the
    mapper of a paginator made by getSubscriptionsPaginated decodes from
    it, for any broadcaster: the same data with the same client. *)
Theorem eager_and_paginated_decode_alike broadcaster broadcaster' users (w : World)
    entities :
  fst (getSubscriptionsForUsers broadcaster users w) = Resolved entities →
  ∃ page,
    fst (respond
           (_client,
            {| url := "subscriptions";
               scope := Some "channel:read:subscriptions";
               type := Some Helix;
               query := {[ "broadcaster_id" := QString (extractUserId broadcaster);
                           "user_id" := QStrings (extractUserId <$> users) ]} |})
           (Async.remote w)) = Resolved page
    ∧ entities
      = Helix._mapper (getSubscriptionsPaginated broadcaster') <$> Helix.data page.
Proof.
  unfold Helix.getSubscriptionsForUsers. rewrite callApi_then_decode. simpl.
  destruct (fst (respond _ (Async.remote w))) as [page|e]; [|discriminate].
  intros [= <-]. eauto.
Qed.
End HelixRequests.

(** * Further properties of the redemption subscription *)

Lemma append_cancel_l (p u v : string) : (p ++ u = p ++ v)%string → u = v.
Proof.
  induction p as [|c p IH]; simpl; [auto|]. intros [= H]. auto.
Qed.

Lemma substring_all (u : string) : substring 0 (String.length u) u = u.
Proof.
  induction u as [|c u IH]; simpl; [reflexivity|]. now rewrite IH.
Qed.

Lemma substring_after_prefix (p u : string) :
  substring (String.length p) (String.length u) (p ++ u)%string = u.
Proof.
  induction p as [|c p IH]; simpl; [apply substring_all | exact IH].
Qed.

Lemma length_append_sum (p u : string) :
  String.length (p ++ u)%string = String.length p + String.length u.
Proof.
  induction p as [|c p IH]; simpl; [reflexivity|]. now rewrite IH.
Qed.

Lemma prefix_append (p u : string) : String.prefix p (p ++ u)%string = true.
Proof.
  induction p as [|c p IH]; simpl; [now destruct u|].
  destruct (Ascii.ascii_dec c c) as [_|Hc]; [exact IH | now destruct Hc].
Qed.

Section EventSubInvariants.
Context {Handler EventSubBase ApiClient EventData TransportOptions
         HelixEventSubSubscription Remote : Type}.
Variable _apiClient : EventSubBase → ApiClient.
Variable respond :
  @EventSub.Call ApiClient TransportOptions → Remote →
  Completion HelixEventSubSubscription * Remote.
Variable getTransportOptions :
  @EventSub.EventSubChannelRedemptionAddSubscription Handler EventSubBase →
  Remote → Completion TransportOptions * Remote.

Local Abbreviation World :=
  (Async.World (@EventSub.Call ApiClient TransportOptions) Remote).
Local Abbreviation Subscription :=
  (@EventSub.EventSubChannelRedemptionAddSubscription Handler EventSubBase).
Local Abbreviation new_Subscription :=
  (@EventSub.new_EventSubChannelRedemptionAddSubscription Handler EventSubBase).
Local Abbreviation _subscribe :=
  (EventSub._subscribe _apiClient respond getTransportOptions).
Local Abbreviation transformData :=
  (EventSub.transformData (EventData:=EventData) _apiClient).

(** X10: two subscriptions have the same identity exactly when they are for the
    same userId. *)
Theorem id_determines_userId (a b : Subscription) :
  EventSub.id a = EventSub.id b ↔ EventSub._userId a = EventSub._userId b.
Proof.
  unfold EventSub.id. split.
  - apply append_cancel_l.
  - now intros ->.
Qed.

(** X11: the identity is the fixed 52-character prefix followed by the userId,
    which can be read back from it. *)
Theorem id_carries_userId (this : Subscription) :
  String.prefix "channel.channel_points_custom_reward_redemption.add."
    (EventSub.id this) = true
  ∧ String.length (EventSub.id this) = 52 + String.length (EventSub._userId this)
  ∧ substring 52 (String.length (EventSub.id this) - 52) (EventSub.id this)
    = EventSub._userId this.
Proof.
  unfold EventSub.id. split; [apply prefix_append|].
  rewrite length_append_sum.
  change (String.length "channel.channel_points_custom_reward_redemption.add.")
    with 52.
  split; [reflexivity|].
  replace (52 + String.length (EventSub._userId this) - 52)
    with (String.length (EventSub._userId this)) by lia.
  exact (substring_after_prefix
           "channel.channel_points_custom_reward_redemption.add."
           (EventSub._userId this)).
Qed.

(** X12: _subscribe keeps the calls already issued and adds at most one.  The
    call it adds is made on the API client that transformData gives to the
    events, for the instance's own userId and with the transport options
    just obtained; a reward-specific call carries the instance's rewardId,
    which is then not empty, and a general call is only made when the
    rewardId is absent or empty. *)
Theorem subscribe_issues_own_call (this : Subscription) (w : World) :
  ∃ added,
    Async.issued (snd (_subscribe this w)) = Async.issued w ++ added
    ∧ (length added ≤ 1)%nat
    ∧ ∀ call, call ∈ added →
        match call with
        | EventSub.subscribeToChannelRedemptionAddEventsForReward
            api user reward transport =>
            (∀ data, EventSub.EventSubChannelRedemptionAddEvent_client
                       (transformData this data) = api)
            ∧ user = EventSub._userId this
            ∧ fst (getTransportOptions this (Async.remote w)) = Resolved transport
            ∧ EventSub._rewardId this = Some reward
            ∧ reward ≠ ""
        | EventSub.subscribeToChannelRedemptionAddEvents api user transport =>
            (∀ data, EventSub.EventSubChannelRedemptionAddEvent_client
                       (transformData this data) = api)
            ∧ user = EventSub._userId this
            ∧ fst (getTransportOptions this (Async.remote w)) = Resolved transport
            ∧ (EventSub._rewardId this = None ∨ EventSub._rewardId this = Some "")
        end.
Proof.
  rewrite _subscribe_run, if_truthy_spec.
  destruct (getTransportOptions this (Async.remote w)) as [[transport|e] s]; simpl.
  - eexists [_]. split; [reflexivity|]. split; [simpl; lia|].
    intros call ->%list_elem_of_singleton.
    destruct (EventSub._rewardId this) as [reward|]; [|now auto].
    destruct (String.eqb_spec reward "") as [->|Hne]; now auto.
  - exists []. split; [now rewrite app_nil_r|]. split; [simpl; lia|].
    intros call []%elem_of_nil.
Qed.

(** X13: an instance with a non-empty rewardId and one without, for the same
    userId, have the same identity although, once both have their transport
    options, they issue different registration calls. *)
Theorem same_id_different_registration handler client userId rewardId (w : World)
    transport s transport' s' :
  let this := new_Subscription handler client userId (Some rewardId) in
  let absent := new_Subscription handler client userId None in
  rewardId ≠ "" →
  getTransportOptions this (Async.remote w) = (Resolved transport, s) →
  getTransportOptions absent (Async.remote w) = (Resolved transport', s') →
  EventSub.id this = EventSub.id absent
  ∧ Async.issued (snd (_subscribe this w))
    = Async.issued w
      ++ [EventSub.subscribeToChannelRedemptionAddEventsForReward
            (_apiClient client) userId rewardId transport]
  ∧ Async.issued (snd (_subscribe absent w))
    = Async.issued w
      ++ [EventSub.subscribeToChannelRedemptionAddEvents
            (_apiClient client) userId transport']
  ∧ Async.issued (snd (_subscribe this w)) ≠ Async.issued (snd (_subscribe absent w)).
Proof.
  intros this absent Hne Ht Ht'.
  assert (Hthis : Async.issued (snd (_subscribe this w))
                  = Async.issued w
                    ++ [EventSub.subscribeToChannelRedemptionAddEventsForReward
                          (_apiClient client) userId rewardId transport]).
  { rewrite _subscribe_run, if_truthy_spec, Ht. simpl.
    now destruct (String.eqb_spec rewardId ""). }
  assert (Habsent : Async.issued (snd (_subscribe absent w))
                    = Async.issued w
                      ++ [EventSub.subscribeToChannelRedemptionAddEvents
                            (_apiClient client) userId transport']).
  { now rewrite _subscribe_run, Ht'. }
  repeat split; auto.
  rewrite Hthis, Habsent. intros H%app_inv_head. discriminate H.
Qed.
End EventSubInvariants.

(** * Worked examples for the further properties *)

Lemma checkUserSubscription_null_only_on_not_found_witness :
  ∃ statusText body,
    fst (Scripted.respond
           ("client",
            {| type := Some Helix;
               url := "subscriptions/user";
               scope := Some "user:read:subscriptions";
               query := {[ "broadcaster_id" := QString (Scripted.extractUserId "broadcaster");
                           "user_id" := QString (Scripted.extractUserId "user") ]} |})
           [Rejected (A:=@Helix.HelixResponse string)
              (HttpStatusCodeError 404 "Not Found" "")])
    = Rejected (HttpStatusCodeError 404 statusText body).
Proof.
  apply (checkUserSubscription_null_only_on_not_found
           Scripted.extractUserId Scripted.respond "client" "user" "broadcaster"
           (Scripted.fresh
              [Rejected (A:=@Helix.HelixResponse string)
                 (HttpStatusCodeError 404 "Not Found" "")])).
  reflexivity.
Defined.

Lemma eager_and_paginated_decode_alike_witness :
  ∃ page,
    fst (Scripted.respond
           ("client",
            {| url := "subscriptions";
               scope := Some "channel:read:subscriptions";
               type := Some Helix;
               query := {[ "broadcaster_id" := QString (Scripted.extractUserId "broadcaster");
                           "user_id" := QStrings (Scripted.extractUserId <$> ["alice"; "bob"]) ]} |})
           [Resolved (Scripted.body ["sub-alice"; "sub-bob"])])
    = Resolved page
    ∧ [Helix.new_HelixSubscription "sub-alice" "client";
       Helix.new_HelixSubscription "sub-bob" "client"]
      = Helix._mapper
          (Helix.getSubscriptionsPaginated Scripted.extractUserId "client" "another")
        <$> Helix.data page.
Proof.
  apply (eager_and_paginated_decode_alike
           Scripted.extractUserId Scripted.respond "client"
           "broadcaster" "another" ["alice"; "bob"]
           (Scripted.fresh [Resolved (Scripted.body ["sub-alice"; "sub-bob"])])).
  reflexivity.
Defined.

Lemma same_id_different_registration_witness :
  let this :=
    EventSub.new_EventSubChannelRedemptionAddSubscription
      0 "listener" "61369223" (Some "r1") in
  let absent :=
    EventSub.new_EventSubChannelRedemptionAddSubscription
      0 "listener" "61369223" None in
  let w := Scripted.fresh [Resolved "remote-subscription-1"] in
  EventSub.id this = EventSub.id absent
  ∧ Async.issued
      (snd (EventSub._subscribe Scripted._apiClient Scripted.respond
              Scripted.getTransportOptions this w))
    ≠ Async.issued
        (snd (EventSub._subscribe Scripted._apiClient Scripted.respond
                Scripted.getTransportOptions absent w)).
Proof.
  intros this absent w.
  destruct (same_id_different_registration
              Scripted._apiClient Scripted.respond Scripted.getTransportOptions
              0 "listener" "61369223" "r1" w
              ("webhook:" ++ EventSub.id this)%string
              [Resolved "remote-subscription-1"]
              ("webhook:" ++ EventSub.id absent)%string
              [Resolved "remote-subscription-1"])
    as (Hid & _ & _ & Hcalls);
    [discriminate | reflexivity | reflexivity |].
  split; [exact Hid | exact Hcalls].
Defined.

(** The call that getSubscriptions issues and the call options that
    getSubscriptionsPaginated builds for the same broadcaster are not
    identical: the first has type Helix, the second has no type. *)
Lemma getSubscriptions_identical_parameters_counterexample :
  let issued :=
    Async.issued
      (snd (Helix.getSubscriptions Scripted.extractUserId Scripted.respond
              "client" "61369223"
              (Scripted.fresh [Resolved (Scripted.body [])]))) in
  let paginated :=
    Helix._callOptions
      (Helix.getSubscriptionsPaginated (RawData:=string)
         Scripted.extractUserId "client" "61369223") in
  type <$> (snd <$> issued) = [Some Helix]
  ∧ type paginated = None
  ∧ issued ≠ [("client", paginated)].
Proof.
  repeat split. intros H.
  apply (f_equal (λ calls, type <$> (snd <$> calls))) in H. discriminate H.
Qed.
